(** * The simulate namespace of the Anchor TypeScript client

    A shallow embedding of [SimulateFactory.build]
    (ts/packages/anchor/src/program/namespace/simulate.ts) and of the
    collaborators it calls, followed by the properties of the generated
    simulate function: which error each failure path throws, what the
    returned [SimulateResponse] holds, and which collaborators were called
    on the way. *)

From stdpp Require Import base option list strings gmap.

(** ** Opaque types of the surrounding packages

    [simulate.ts] handles these values without looking inside them:
    the transaction built by [txFn], signers, commitments, the positional
    arguments ([any[]] in the source), the IDL descriptions of an
    instruction and of an event, the program address, a decoded event and
    whatever value a rejected provider call carries. *)
Class ExternalTypes : Type := {
  Transaction : Type;
  Signer : Type;
  Commitment : Type;
  Arg : Type;
  IdlInstruction : Type;
  IdlEvent : Type;
  PublicKey : Type;
  Event : Type;
  RawError : Type;
}.

(** ** Records read by [build] *)

(** [ConfirmOptions]: only [commitment] is read (line 39). *)
Record ConfirmOptions `{ExternalTypes} : Type := {
  commitment : option Commitment;
}.

(** [Context] of ../context.js: [ctx.signers] and [ctx.options] are both
    optional properties. *)
Record Context `{ExternalTypes} : Type := {
  signers : option (list Signer);
  options : option ConfirmOptions;
}.

(** [SuccessfulTxSimulationResponse]: only [logs] is read (line 47); the
    property is a string array, or [null]/[undefined]. *)
Record SuccessfulTxSimulationResponse : Type := {
  logs : option (list string);
}.

(** [Idl]: only the optional [events] property is read (line 53). *)
Record Idl `{ExternalTypes} : Type := {
  idl_events : option (list IdlEvent);
}.

(** [Coder]: the event decoder [coder.events.decode], from an encoded
    payload to an event, or nothing when no layout matches. *)
Record Coder `{ExternalTypes} : Type := {
  events_decode : string → option Event;
}.

(** A settled promise: what [await] observes. *)
Inductive Settled `{ExternalTypes} (A : Type) : Type :=
  | Fulfilled (value : A)
  | Rejected (reason : RawError).
Arguments Fulfilled {_ _} value.
Arguments Rejected {_ _} reason.

(** [Provider]: [simulate] is an optional method (line 30 compares it with
    [undefined]); when present it settles with a response or [undefined],
    or rejects. *)
Record Provider `{ExternalTypes} : Type := {
  simulate :
    option (Transaction → option (list Signer) → option Commitment →
            Settled (option SuccessfulTxSimulationResponse));
}.

(** [SimulateResponse] (lines 117-120). *)
Record SimulateResponse `{ExternalTypes} : Type := {
  events : list Event;
  raw : list string;
}.

(** ** Thrown values *)

(** What the generated function throws: a plain JavaScript [Error] with its
    message (lines 31, 45, 49), or the value returned by [translateError]
    (line 42). The two shapes of that value, [ProgramError] and
    [UnknownError], are those of the specification's error taxonomy:
    ../../error.js is not among the sources. *)
Inductive Thrown `{ExternalTypes} : Type :=
  | Error (message : string)
  | ProgramError (code : Z) (msg : string)
  | UnknownError (cause : RawError).

(** The three plain errors of lines 31, 45 and 49, under the names the
    specification gives them. *)
Definition UnsupportedOperation `{ExternalTypes} : Thrown :=
  Error "This function requires 'Provider.simulate' to be implemented.".
Definition SimulationUnavailable `{ExternalTypes} : Thrown :=
  Error "Unable to simulate transaction".
Definition LogsNotFound `{ExternalTypes} : Thrown :=
  Error "Simulated logs not found".

(** How a computation ends: normally with a value, or by throwing. *)
Inductive Completion (E A : Type) : Type :=
  | Normal (value : A)
  | Throw (thrown : E).
Arguments Normal {E A} value.
Arguments Throw {E A} thrown.

(** ** Functions of other modules that [build] calls *)

(** Modelled from the spec: what [build] needs of ../context.js,
    ../event.js and ../../error.js, none of which is among the sources,
    taken as parameters. [splitArgsAndCtx] separates the positional
    arguments from the trailing context, or throws on an argument list it
    cannot split; [emissionMarker] is the prefix that marks an event in the
    log lines of a program; [errorCode] is the program error code a
    rejected call carries, if any. *)
Class Collaborators `{ExternalTypes} : Type := {
  splitArgsAndCtx :
    IdlInstruction → list Arg → Completion Thrown (list Arg * Context);
  emissionMarker : PublicKey → string;
  errorCode : RawError → option Z;
}.

(** Modelled from the spec: [translateError] of ../../error.js, which is not
    among the sources. The raw error is looked up in the program's error
    table by its code: a matching entry gives a [ProgramError] with the
    table's message, anything else passes through as an [UnknownError]
    holding the original cause. *)
Definition translateError `{Collaborators} (err : RawError)
    (idlErrors : gmap Z string) : Thrown :=
  match errorCode err with
  | Some c =>
      match idlErrors !! c with
      | Some m => ProgramError c m
      | None => UnknownError err
      end
  | None => UnknownError err
  end.

(** [strip_prefix pre s] is the rest of [s] after the prefix [pre]. *)
Fixpoint strip_prefix (pre s : string) : option string :=
  match pre, s with
  | EmptyString, _ => Some s
  | String a pre', String b s' =>
      if Ascii.eqb a b then strip_prefix pre' s' else None
  | String _ _, EmptyString => None
  end.

(** Modelled from the spec: [EventParser] of ../event.js, which is not among
    the sources. A parser is made from the program address and the coder; a
    log line is an emission when it starts with the program's marker, and
    its payload, the rest of the line, is handed to the coder. *)
Record EventParser `{ExternalTypes} : Type := {
  parser_programId : PublicKey;
  parser_coder : Coder;
}.

(** Modelled from the spec: what the parser makes of one log line. *)
Definition handleLog `{Collaborators} (p : EventParser) (line : string)
    : option Event :=
  payload ← strip_prefix (emissionMarker (parser_programId p)) line;
  events_decode (parser_coder p) payload.

(** Modelled from the spec: [EventParser.parseLogs], the generator over the
    log lines, given here by the finite sequence of events it yields. Lines
    are scanned in order; a line that is no emission, or whose payload does
    not decode, yields nothing and the scan goes on. *)
Fixpoint parseLogs `{Collaborators} (p : EventParser) (logs : list string)
    : list Event :=
  match logs with
  | [] => []
  | line :: rest =>
      match handleLog p line with
      | Some event => event :: parseLogs p rest
      | None => parseLogs p rest
      end
  end.

(** ** Calls and completions *)

(** The calls [build]'s function makes to its collaborators, recorded in
    the order they happen. *)
Inductive Call `{ExternalTypes} : Type :=
  | CallTxFn (args : list Arg)
  | CallSplitArgsAndCtx (idlIx : IdlInstruction) (args : list Arg)
  | CallProviderSimulate (tx : Transaction) (sg : option (list Signer))
      (cm : option Commitment)
  | CallTranslateError (err : RawError)
  | CallNewEventParser (programId : PublicKey)
  | CallParseLogs (logs : list string).

(** A computation: the calls made, then the completion. [E] is the type of
    the thrown values. *)
Record Eff `{ExternalTypes} (E A : Type) : Type := mkEff {
  trace : list Call;
  completion : Completion E A;
}.
Arguments mkEff {_ E A} trace completion.
Arguments trace {_ E A} _.
Arguments completion {_ E A} _.

Definition ret `{ExternalTypes} {E A} (a : A) : Eff E A := mkEff [] (Normal a).
Definition throw `{ExternalTypes} {E A} (e : E) : Eff E A := mkEff [] (Throw e).
Definition call `{ExternalTypes} {E A} (c : Call) (a : A) : Eff E A :=
  mkEff [c] (Normal a).

(** A call to a collaborator, which returns or throws. *)
Definition invoke `{ExternalTypes} {E A} (c : Call) (r : Completion E A)
    : Eff E A :=
  mkEff [c] r.

Definition bind `{ExternalTypes} {E A B} (m : Eff E A) (k : A → Eff E B)
    : Eff E B :=
  match completion m with
  | Normal a => mkEff (trace m ++ trace (k a)) (completion (k a))
  | Throw e => mkEff (trace m) (Throw e)
  end.

(** [try { m } catch (err) { h err }] *)
Definition try_catch `{ExternalTypes} {E E' A} (m : Eff E A)
    (h : E → Eff E' A) : Eff E' A :=
  match completion m with
  | Normal a => mkEff (trace m) (Normal a)
  | Throw e => mkEff (trace m ++ trace (h e)) (completion (h e))
  end.

(** [await p] *)
Definition await `{ExternalTypes} {A} (p : Settled A) : Eff RawError A :=
  match p with
  | Fulfilled v => ret v
  | Rejected e => throw e
  end.

Notation "'let*' x ':=' m 'in' k" := (bind m (λ x, k))
  (at level 10, x name, m at level 100, k at level 200,
   format "'[v' 'let*'  x  ':='  m  'in' '/' k ']'").

(** [events.push(event)] for each event of the iteration (lines 55-57). *)
Definition push_each {A} (acc : list A) (yielded : list A) : list A :=
  foldl (λ acc event, acc ++ [event]) acc yielded.

(** ** [SimulateFactory.build] (lines 17-63)

    [txFn] and [splitArgsAndCtx] are called first (lines 27-28), outside
    the [try]: what they throw leaves the function as it is. *)

Definition SimulateFn `{ExternalTypes} : Type :=
  list Arg → Eff Thrown SimulateResponse.

Definition build `{Collaborators} (idlIx : IdlInstruction)
    (txFn : list Arg → Completion Thrown Transaction)
    (idlErrors : gmap Z string) (provider : Provider) (coder : Coder)
    (programId : PublicKey) (idl : Idl) : SimulateFn :=
  λ args,
    let* tx := invoke (CallTxFn args) (txFn args) in
    let* split := invoke (CallSplitArgsAndCtx idlIx args)
                         (splitArgsAndCtx idlIx args) in
    let ctx := split.2 in
    match simulate provider with          (* provider.simulate === undefined *)
    | None => throw UnsupportedOperation
    | Some provider_simulate =>
        let sg := signers ctx in
        let cm := options ctx ≫= commitment in
        let* resp :=
          try_catch
            (let* _ := call (CallProviderSimulate tx sg cm) () in
             await (provider_simulate tx sg cm))
            (λ err,
              let* e := call (CallTranslateError err)
                             (translateError err idlErrors) in
              throw e) in
        match resp with                   (* resp === undefined *)
        | None => throw SimulationUnavailable
        | Some resp =>
            match logs resp with          (* !logs: an array is truthy *)
            | None => throw LogsNotFound
            | Some logs =>
                let* events :=
                  match idl_events idl with   (* if (idl.events): an array, *)
                  | Some _ =>                 (* also an empty one, is truthy *)
                      let* parser :=
                        call (CallNewEventParser programId)
                             {| parser_programId := programId;
                                parser_coder := coder |} in
                      let* yielded := call (CallParseLogs logs)
                                           (parseLogs parser logs) in
                      ret (push_each [] yielded)
                  | None => ret []
                  end in
                ret {| events := events; raw := logs |}
            end
        end
    end.

(** ** Reading a trace *)

(** The network round-trip: the provider's simulate. *)
Definition network_call `{ExternalTypes} (c : Call) : bool :=
  match c with
  | CallProviderSimulate _ _ _ => true
  | _ => false
  end.

(** The event decoder at work: a parser made, or the logs handed to it. *)
Definition parser_call `{ExternalTypes} (c : Call) : bool :=
  match c with
  | CallNewEventParser _ | CallParseLogs _ => true
  | _ => false
  end.

(** The events an IDL declares: those its [events] property lists, none
    when the property is absent. *)
Definition declared_events `{ExternalTypes} (idl : Idl) : list IdlEvent :=
  default [] (idl_events idl).

(** ** A small program: the counter of the documentation

    [program.simulate.increment(...)], with strings for the opaque values.
    Its log lines carry events after the marker ["Program data: "], and its
    coder decodes the payloads [ev:<name>]. *)
Definition counter_types : ExternalTypes := {|
  Transaction := list string;
  Signer := string;
  Commitment := string;
  Arg := string;
  IdlInstruction := list string;
  IdlEvent := string;
  PublicKey := string;
  Event := string;
  RawError := option Z;
|}.

(** The counter's calls carry no context. Its splitter takes an argument
    list shorter than the instruction's for malformed, and keeps as many
    arguments as the instruction has. *)
Definition empty_context : @Context counter_types :=
  @Build_Context counter_types None None.

Definition counter_splitArgsAndCtx (idlIx args : list string)
    : Completion (@Thrown counter_types)
        (list string * @Context counter_types) :=
  if (length args <? length idlIx)%nat
  then Throw (Error "MalformedArguments")
  else Normal (take (length idlIx) args, empty_context).

Definition counter_collaborators : @Collaborators counter_types :=
  @Build_Collaborators counter_types
    counter_splitArgsAndCtx
    (λ _, "Program data: ")
    (λ err : option Z, err).

(** The counter's transaction is its argument list. *)
Definition counter_txFn (args : list string)
    : Completion (@Thrown counter_types) (list string) :=
  Normal args.

Definition counter_coder : @Coder counter_types :=
  @Build_Coder counter_types (strip_prefix "ev:").

(** The coder of a program without events: no payload decodes. *)
Definition eventless_coder : @Coder counter_types :=
  @Build_Coder counter_types (λ _, None).

Definition counter_errors : gmap Z string :=
  {[ 6000%Z := "Counter overflow" ]}.

Definition counter_idl : @Idl counter_types :=
  @Build_Idl counter_types (Some ["Incremented"]).
Definition idl_without_events : @Idl counter_types :=
  @Build_Idl counter_types None.
Definition idl_with_empty_events : @Idl counter_types :=
  @Build_Idl counter_types (Some []).

Definition provider_without_simulate : @Provider counter_types :=
  @Build_Provider counter_types None.
Definition provider_settling
    (p : @Settled counter_types (option SuccessfulTxSimulationResponse))
    : @Provider counter_types :=
  @Build_Provider counter_types (Some (λ _ _ _, p)).

Definition plain_logs : list string :=
  ["Program Counter111 invoke [1]"; "Program log: Instruction: Increment";
   "Program Counter111 success"].
Definition emission_logs : list string :=
  ["Program data: ev:Incremented"; "Program data: ???";
   "Program data: ev:Saturated"].

(** Two failures of the cluster: the program's error 6000, and one without
    a code. *)
Definition overflow_error : @RawError counter_types := Some 6000%Z.
Definition connection_error : @RawError counter_types := None.

Definition counter_response (evs lines : list string)
    : @SimulateResponse counter_types :=
  @Build_SimulateResponse counter_types evs lines.

(** A provider whose simulate returns a result with these logs. *)
Definition provider_logging (lines : option (list string))
    : @Provider counter_types :=
  provider_settling (@Fulfilled counter_types _ (Some {| logs := lines |})).

(** [build] for the counter's [increment], which takes no argument. *)
Definition counter_simulate (provider : @Provider counter_types)
    (coder : @Coder counter_types) (idl : @Idl counter_types)
    : @SimulateFn counter_types :=
  @build counter_types counter_collaborators [] counter_txFn
    counter_errors provider coder "Counter111" idl.

Definition three_emission_logs : list string :=
  ["Program Counter111 invoke [1]"; "Program data: ev:Incremented";
   "Program log: step"; "Program data: ev:Incremented";
   "Program data: ev:Saturated"; "Program Counter111 success"].

(** The runs of [increment] used as examples below. *)
Definition quiet_run : @Eff counter_types Thrown SimulateResponse :=
  counter_simulate (provider_logging (Some plain_logs)) counter_coder
    counter_idl [].
Definition empty_events_run : @Eff counter_types Thrown SimulateResponse :=
  counter_simulate (provider_logging (Some emission_logs)) eventless_coder
    idl_with_empty_events [].
Definition no_result_run : @Eff counter_types Thrown SimulateResponse :=
  counter_simulate (provider_settling (@Fulfilled counter_types _ None))
    counter_coder counter_idl [].
Definition overflow_run : @Eff counter_types Thrown SimulateResponse :=
  counter_simulate
    (provider_settling (@Rejected counter_types _ overflow_error))
    counter_coder counter_idl [].
Definition no_logs_run : @Eff counter_types Thrown SimulateResponse :=
  counter_simulate (provider_logging None) counter_coder counter_idl [].

Definition unsupported_run : @Eff counter_types Thrown SimulateResponse :=
  counter_simulate provider_without_simulate counter_coder counter_idl ["1"].

(** [set(value)] called without its argument, on a provider that cannot
    simulate. *)
Definition malformed_run : @Eff counter_types Thrown SimulateResponse :=
  @build counter_types counter_collaborators ["value"] counter_txFn
    counter_errors provider_without_simulate counter_coder "Counter111"
    counter_idl [].

(** * Properties *)

(** ** The log decoder *)

Lemma push_each_app {A} (acc yielded : list A) :
  push_each acc yielded = acc ++ yielded.
Proof.
  unfold push_each. revert acc.
  induction yielded as [|event yielded IH]; intros acc; cbn.
  - by rewrite app_nil_r.
  - by rewrite IH, <- app_assoc.
Qed.

Lemma push_each_nil {A} (yielded : list A) : push_each [] yielded = yielded.
Proof. apply push_each_app. Qed.

Section parser.
Context `{Collaborators} (p : EventParser).

Lemma parseLogs_omap logs : parseLogs p logs = omap (handleLog p) logs.
Proof. induction logs as [|line rest IH]; cbn; [done|]. by rewrite IH. Qed.

Lemma parseLogs_app l1 l2 :
  parseLogs p (l1 ++ l2) = parseLogs p l1 ++ parseLogs p l2.
Proof. rewrite !parseLogs_omap. apply omap_app. Qed.

Lemma parseLogs_emission line event rest :
  handleLog p line = Some event →
  parseLogs p (line :: rest) = event :: parseLogs p rest.
Proof. intros Hline. cbn. by rewrite Hline. Qed.

Lemma parseLogs_skip line rest :
  handleLog p line = None → parseLogs p (line :: rest) = parseLogs p rest.
Proof. intros Hline. cbn. by rewrite Hline. Qed.

(** A line that yields nothing can be taken out of the logs, wherever it
    stands, without changing the events. *)
Lemma parseLogs_unparseable_line before line after :
  handleLog p line = None →
  parseLogs p (before ++ line :: after) = parseLogs p (before ++ after).
Proof.
  intros Hline. by rewrite !parseLogs_app, parseLogs_skip.
Qed.

(** Every event comes from a line of the logs. *)
Lemma parseLogs_elem_of logs event :
  event ∈ parseLogs p logs ↔ ∃ line, line ∈ logs ∧ handleLog p line = Some event.
Proof. rewrite parseLogs_omap. apply list_elem_of_omap. Qed.

End parser.

(** ** The paths through the generated function *)

Section paths.
Context `{Collaborators}.
Context (idlIx : IdlInstruction)
  (txFn : list Arg → Completion Thrown Transaction)
  (idlErrors : gmap Z string) (coder : Coder) (programId : PublicKey)
  (args : list Arg).

Local Abbreviation parser :=
  {| parser_programId := programId; parser_coder := coder |}.
Local Abbreviation simulate_fn provider idl :=
  (build idlIx txFn idlErrors provider coder programId idl args).
Local Abbreviation before_simulate :=
  [CallTxFn args; CallSplitArgsAndCtx idlIx args].

Ltac run_build :=
  unfold build, bind, try_catch, await, call, invoke, ret, throw; cbn;
  repeat match goal with
         | Heq : ?x = _ |- context [?x] => rewrite Heq; cbn
         end.

(** What [txFn] or [splitArgsAndCtx] throws leaves the function as it is,
    and nothing more is called. *)
Lemma build_txFn_throws provider idl e :
  txFn args = Throw e →
  simulate_fn provider idl = mkEff [CallTxFn args] (Throw e).
Proof. intros Htx. by run_build. Qed.

Lemma build_split_throws provider idl tx e :
  txFn args = Normal tx →
  splitArgsAndCtx idlIx args = Throw e →
  simulate_fn provider idl = mkEff before_simulate (Throw e).
Proof. intros Htx Hsplit. by run_build. Qed.

(** The paths of an invocation whose transaction is [tx] and whose context
    is [ctx]. *)
Section prepared.
Context (tx : Transaction) (positional : list Arg) (ctx : Context).
Hypothesis Htx : txFn args = Normal tx.
Hypothesis Hsplit : splitArgsAndCtx idlIx args = Normal (positional, ctx).

Local Abbreviation sg := (signers ctx).
Local Abbreviation cm := (options ctx ≫= commitment).
Local Abbreviation through_simulate :=
  [CallTxFn args; CallSplitArgsAndCtx idlIx args;
   CallProviderSimulate tx sg cm].

Lemma build_unsupported provider idl :
  simulate provider = None →
  simulate_fn provider idl = mkEff before_simulate (Throw UnsupportedOperation).
Proof using Htx Hsplit. intros Hp. by run_build. Qed.

Lemma build_rejected provider idl provider_simulate err :
  simulate provider = Some provider_simulate →
  provider_simulate tx sg cm = Rejected err →
  simulate_fn provider idl =
    mkEff (through_simulate ++ [CallTranslateError err])
          (Throw (translateError err idlErrors)).
Proof using Htx Hsplit. intros Hp Hs. by run_build. Qed.

Lemma build_no_result provider idl provider_simulate :
  simulate provider = Some provider_simulate →
  provider_simulate tx sg cm = Fulfilled None →
  simulate_fn provider idl = mkEff through_simulate (Throw SimulationUnavailable).
Proof using Htx Hsplit. intros Hp Hs. by run_build. Qed.

Lemma build_no_logs provider idl provider_simulate resp :
  simulate provider = Some provider_simulate →
  provider_simulate tx sg cm = Fulfilled (Some resp) →
  logs resp = None →
  simulate_fn provider idl = mkEff through_simulate (Throw LogsNotFound).
Proof using Htx Hsplit. intros Hp Hs Hl. by run_build. Qed.

Lemma build_events_absent provider idl provider_simulate resp lines :
  simulate provider = Some provider_simulate →
  provider_simulate tx sg cm = Fulfilled (Some resp) →
  logs resp = Some lines →
  idl_events idl = None →
  simulate_fn provider idl =
    mkEff through_simulate (Normal {| events := []; raw := lines |}).
Proof using Htx Hsplit. intros Hp Hs Hl He. by run_build. Qed.

Lemma build_events_present provider idl provider_simulate resp lines evs :
  simulate provider = Some provider_simulate →
  provider_simulate tx sg cm = Fulfilled (Some resp) →
  logs resp = Some lines →
  idl_events idl = Some evs →
  simulate_fn provider idl =
    mkEff (through_simulate ++ [CallNewEventParser programId; CallParseLogs lines])
          (Normal {| events := parseLogs parser lines; raw := lines |}).
Proof using Htx Hsplit.
  intros Hp Hs Hl He. run_build. by rewrite push_each_nil.
Qed.

(** The events of a response over the lines [lines]. *)
Lemma build_logs provider idl provider_simulate resp lines :
  simulate provider = Some provider_simulate →
  provider_simulate tx sg cm = Fulfilled (Some resp) →
  logs resp = Some lines →
  completion (simulate_fn provider idl) =
    Normal {| events := match idl_events idl with
                        | Some _ => parseLogs parser lines
                        | None => []
                        end;
              raw := lines |}.
Proof using Htx Hsplit.
  intros Hp Hs Hl. destruct (idl_events idl) as [evs|] eqn:He.
  - by erewrite build_events_present.
  - by erewrite build_events_absent.
Qed.

End prepared.

(** The eight ways through the function, each with its whole run. *)
Lemma build_cases provider idl :
  (∃ e, txFn args = Throw e ∧
     simulate_fn provider idl = mkEff [CallTxFn args] (Throw e)) ∨
  (∃ tx e,
     txFn args = Normal tx ∧ splitArgsAndCtx idlIx args = Throw e ∧
     simulate_fn provider idl = mkEff before_simulate (Throw e)) ∨
  ∃ tx positional ctx,
    txFn args = Normal tx ∧
    splitArgsAndCtx idlIx args = Normal (positional, ctx) ∧
    ((simulate provider = None ∧
      simulate_fn provider idl =
        mkEff before_simulate (Throw UnsupportedOperation)) ∨
     ∃ provider_simulate,
       simulate provider = Some provider_simulate ∧
       ((∃ err,
           provider_simulate tx (signers ctx) (options ctx ≫= commitment) =
             Rejected err ∧
           simulate_fn provider idl =
             mkEff (before_simulate ++
                      [CallProviderSimulate tx (signers ctx)
                         (options ctx ≫= commitment);
                       CallTranslateError err])
                   (Throw (translateError err idlErrors))) ∨
        (provider_simulate tx (signers ctx) (options ctx ≫= commitment) =
           Fulfilled None ∧
         simulate_fn provider idl =
           mkEff (before_simulate ++
                    [CallProviderSimulate tx (signers ctx)
                       (options ctx ≫= commitment)])
                 (Throw SimulationUnavailable)) ∨
        ∃ resp,
          provider_simulate tx (signers ctx) (options ctx ≫= commitment) =
            Fulfilled (Some resp) ∧
          ((logs resp = None ∧
            simulate_fn provider idl =
              mkEff (before_simulate ++
                       [CallProviderSimulate tx (signers ctx)
                          (options ctx ≫= commitment)])
                    (Throw LogsNotFound)) ∨
           ∃ lines,
             logs resp = Some lines ∧
             ((idl_events idl = None ∧
               simulate_fn provider idl =
                 mkEff (before_simulate ++
                          [CallProviderSimulate tx (signers ctx)
                             (options ctx ≫= commitment)])
                       (Normal {| events := []; raw := lines |})) ∨
              (is_Some (idl_events idl) ∧
               simulate_fn provider idl =
                 mkEff (before_simulate ++
                          [CallProviderSimulate tx (signers ctx)
                             (options ctx ≫= commitment);
                           CallNewEventParser programId;
                           CallParseLogs lines])
                       (Normal {| events := parseLogs parser lines;
                                  raw := lines |})))))).
Proof.
  destruct (txFn args) as [tx|e] eqn:Htx.
  2: { left. exists e. eauto using build_txFn_throws. }
  destruct (splitArgsAndCtx idlIx args) as [[positional ctx]|e] eqn:Hsplit.
  2: { right. left. exists tx, e. eauto using build_split_throws. }
  do 2 right. exists tx, positional, ctx. do 2 (split; [done|]).
  destruct (simulate provider) as [provider_simulate|] eqn:Hp.
  2: { left. eauto using build_unsupported. }
  right. exists provider_simulate. split; [done|].
  destruct (provider_simulate tx (signers ctx) (options ctx ≫= commitment))
    as [[resp|]|err] eqn:Hs.
  - do 2 right. exists resp. split; [done|].
    destruct (logs resp) as [lines|] eqn:Hl.
    + right. exists lines. split; [done|].
      destruct (idl_events idl) as [evs|] eqn:He.
      * right. split; [by eexists|]. by eapply build_events_present.
      * left. split; [done|]. by eapply build_events_absent.
    + left. split; [done|]. by eapply build_no_logs.
  - right. left. split; [done|]. by eapply build_no_result.
  - left. exists err. split; [done|]. by eapply build_rejected.
Qed.

Ltac build_paths provider idl :=
  destruct (build_cases provider idl) as
    [ (e0 & Htx & Hrun)
    | [ (tx0 & e0 & Htx & Hsplit & Hrun)
      | (tx0 & positional0 & ctx0 & Htx & Hsplit &
         [ (Hp & Hrun)
         | (f & Hp &
            [ (err0 & Hs & Hrun)
            | [ (Hs & Hrun)
              | (resp0 & Hs &
                 [ (Hl & Hrun)
                 | (lines0 & Hl &
                    [ (He & Hrun) | (He & Hrun) ]) ]) ] ]) ]) ] ];
  rewrite Hrun; cbn [trace completion app].

(** A normal completion went through all the checks. *)
Lemma build_normal_inv provider idl r :
  completion (simulate_fn provider idl) = Normal r →
  ∃ tx positional ctx provider_simulate resp,
    txFn args = Normal tx ∧
    splitArgsAndCtx idlIx args = Normal (positional, ctx) ∧
    simulate provider = Some provider_simulate ∧
    provider_simulate tx (signers ctx) (options ctx ≫= commitment) =
      Fulfilled (Some resp) ∧
    logs resp = Some (raw r) ∧
    events r = match idl_events idl with
               | Some _ => parseLogs parser (raw r)
               | None => []
               end.
Proof.
  build_paths provider idl; intros [= <-]; cbn [raw events].
  - exists tx0, positional0, ctx0, f, resp0. by rewrite He.
  - exists tx0, positional0, ctx0, f, resp0. by destruct He as [evs ->].
Qed.

(** Without an [events] property the decoder is left alone, however the
    call ends. *)
Lemma build_events_absent_trace provider idl :
  idl_events idl = None →
  existsb parser_call (trace (simulate_fn provider idl)) = false.
Proof.
  intros Hnone. build_paths provider idl; try done.
  rewrite Hnone in He. by destruct He.
Qed.

(** ** The response

    In the statements below [tx] is the transaction [txFn] returned and
    [ctx] the context [splitArgsAndCtx] returned for the invocation's
    arguments: the provider is called with them, and only when both calls
    have returned. *)

(** C1, as amended. A successful invocation returns no events exactly when
    the IDL has no [events] property or the decoder finds no event in the
    returned log lines; without the property the events are empty whatever
    the logs hold. *)
Theorem events_empty_iff provider idl r :
  completion (build idlIx txFn idlErrors provider coder
      programId idl args) = Normal r →
  (events r = [] ↔ idl_events idl = None ∨ parseLogs parser (raw r) = []).
Proof.
  intros Hr.
  apply build_normal_inv in Hr as (? & ? & ? & ? & ? & ? & ? & ? & ? & ? & ->).
  destruct (idl_events idl) as [evs|]; split.
  - by right.
  - by intros [[=]|?].
  - by left.
  - done.
Qed.

(** C2, as amended. When the IDL has no [events] property, every successful
    invocation returns an empty [events], whatever the logs hold, and the
    decoder is not involved: no parser is made and the log lines are not
    handed to one. *)
Theorem events_absent_short_circuit provider idl r :
  idl_events idl = None →
  completion (build idlIx txFn idlErrors provider coder
      programId idl args) = Normal r →
  events r = [] ∧
  existsb parser_call (trace (build idlIx txFn idlErrors provider coder
      programId idl args)) = false.
Proof.
  intros He Hr. split; [|by apply build_events_absent_trace].
  apply build_normal_inv in Hr as (? & ? & ? & ? & ? & ? & ? & ? & ? & ? & ->).
  by rewrite He.
Qed.

(** C3. When the provider's simulate returns a result with a log sequence,
    the call succeeds and [raw] is that sequence: the same lines in the
    same order. The provider is called with the transaction [tx] that
    [txFn] built and the context [ctx] that [splitArgsAndCtx] returned. *)
Theorem raw_is_provider_logs provider idl tx positional ctx
    provider_simulate resp lines :
  txFn args = Normal tx →
  splitArgsAndCtx idlIx args = Normal (positional, ctx) →
  simulate provider = Some provider_simulate →
  provider_simulate tx (signers ctx) (options ctx ≫= commitment) =
    Fulfilled (Some resp) →
  logs resp = Some lines →
  ∃ r, completion (build idlIx txFn idlErrors provider coder
      programId idl args) = Normal r ∧ raw r = lines.
Proof. intros Htx Hsplit Hp Hs Hl. eexists. by erewrite build_logs. Qed.

(** C4. When the logs hold the emissions of [E1], [E2] and [E3] in that
    order, among any other lines, the decoded [events] hold [E1], [E2],
    [E3] in that order, each where its line stands among the events of the
    lines around it. Emissions are recognized by the parser, which runs
    when the IDL has an [events] property. *)
Theorem events_in_log_order provider idl tx positional ctx
    provider_simulate resp evs l0 a1 l1 a2 l2 a3 l3 E1 E2 E3 :
  idl_events idl = Some evs →
  txFn args = Normal tx →
  splitArgsAndCtx idlIx args = Normal (positional, ctx) →
  simulate provider = Some provider_simulate →
  provider_simulate tx (signers ctx) (options ctx ≫= commitment) =
    Fulfilled (Some resp) →
  logs resp = Some (l0 ++ a1 :: l1 ++ a2 :: l2 ++ a3 :: l3) →
  handleLog parser a1 = Some E1 →
  handleLog parser a2 = Some E2 →
  handleLog parser a3 = Some E3 →
  ∃ r, completion (build idlIx txFn idlErrors provider coder
      programId idl args) = Normal r ∧
       events r = parseLogs parser l0 ++ E1 :: parseLogs parser l1 ++
                  E2 :: parseLogs parser l2 ++ E3 :: parseLogs parser l3 ∧
       [E1; E2; E3] `sublist_of` events r.
Proof.
  intros He Htx Hsplit Hp Hs Hl H1 H2 H3. eexists.
  split; [by erewrite build_logs|].
  rewrite He. cbn [events].
  rewrite parseLogs_app, (parseLogs_emission _ _ _ _ H1).
  rewrite parseLogs_app, (parseLogs_emission _ _ _ _ H2).
  rewrite parseLogs_app, (parseLogs_emission _ _ _ _ H3).
  split; [done|].
  do 3 (apply sublist_inserts_l, sublist_skip). apply sublist_nil_l.
Qed.

(** ** The failures *)

(** C5, as amended. Against a provider without [simulate] the call always
    fails and the provider's simulate is never called, so no network call
    is made. When [txFn] and [splitArgsAndCtx] have returned, the failure is
    the [UnsupportedOperation] error, an [Error] whose message is "This
    function requires 'Provider.simulate' to be implemented.", thrown
    right after those two calls. *)
Theorem unsupported_without_network_call provider idl :
  simulate provider = None →
  existsb network_call (trace (build idlIx txFn idlErrors provider coder
      programId idl args)) = false ∧
  (∀ r, completion (build idlIx txFn idlErrors provider coder
      programId idl args) ≠ Normal r) ∧
  (∀ tx split,
     txFn args = Normal tx →
     splitArgsAndCtx idlIx args = Normal split →
     completion (build idlIx txFn idlErrors provider coder
      programId idl args) = Throw UnsupportedOperation ∧
     UnsupportedOperation =
       Error "This function requires 'Provider.simulate' to be implemented." ∧
     trace (build idlIx txFn idlErrors provider coder
      programId idl args) = before_simulate).
Proof.
  intros Hnone. repeat split.
  - build_paths provider idl; cbn; congruence.
  - intros r. build_paths provider idl; congruence.
  - destruct split as [positional ctx]. by erewrite build_unsupported.
  - destruct split as [positional ctx]. by erewrite build_unsupported.
Qed.

(** C6. When the provider's simulate raises, the call fails with the raised
    error translated through the program's error table: a [ProgramError]
    with the table's message when the code of the error is in the table, an
    [UnknownError] holding the original error otherwise. The call never
    completes normally. *)
Theorem rejected_is_translated provider idl tx positional ctx
    provider_simulate err :
  txFn args = Normal tx →
  splitArgsAndCtx idlIx args = Normal (positional, ctx) →
  simulate provider = Some provider_simulate →
  provider_simulate tx (signers ctx) (options ctx ≫= commitment) =
    Rejected err →
  completion (build idlIx txFn idlErrors provider coder
      programId idl args) = Throw (translateError err idlErrors) ∧
  (∀ c m, errorCode err = Some c → idlErrors !! c = Some m →
     completion (build idlIx txFn idlErrors provider coder
      programId idl args) = Throw (ProgramError c m)) ∧
  ((∀ c, errorCode err = Some c → idlErrors !! c = None) →
     completion (build idlIx txFn idlErrors provider coder
      programId idl args) = Throw (UnknownError err)) ∧
  (∀ r, completion (build idlIx txFn idlErrors provider coder
      programId idl args) ≠ Normal r).
Proof.
  intros Htx Hsplit Hp Hs. erewrite build_rejected by done.
  cbn [completion].
  split; [done|]. unfold translateError. repeat split.
  - intros c m -> ->. done.
  - intros Hnone. destruct (errorCode err) as [c|]; [|done].
    by rewrite (Hnone c).
  - done.
Qed.

(** C7, as amended. When the provider's simulate returns no result, the call
    fails with the [SimulationUnavailable] error, an [Error] whose message
    is "Unable to simulate transaction". *)
Theorem no_result_is_unavailable provider idl tx positional ctx
    provider_simulate :
  txFn args = Normal tx →
  splitArgsAndCtx idlIx args = Normal (positional, ctx) →
  simulate provider = Some provider_simulate →
  provider_simulate tx (signers ctx) (options ctx ≫= commitment) =
    Fulfilled None →
  completion (build idlIx txFn idlErrors provider coder
      programId idl args) = Throw SimulationUnavailable ∧
  SimulationUnavailable = Error "Unable to simulate transaction".
Proof. intros Htx Hsplit Hp Hs. by erewrite build_no_result. Qed.

(** C8, as amended. When the provider returns a result without a log
    sequence, the call fails with the [LogsNotFound] error, an [Error] whose
    message is "Simulated logs not found": it throws nothing else and does
    not return a response. *)
Theorem no_logs_is_logs_not_found provider idl tx positional ctx
    provider_simulate resp :
  txFn args = Normal tx →
  splitArgsAndCtx idlIx args = Normal (positional, ctx) →
  simulate provider = Some provider_simulate →
  provider_simulate tx (signers ctx) (options ctx ≫= commitment) =
    Fulfilled (Some resp) →
  logs resp = None →
  completion (build idlIx txFn idlErrors provider coder
      programId idl args) = Throw LogsNotFound ∧
  LogsNotFound = Error "Simulated logs not found" ∧
  (∀ r, completion (build idlIx txFn idlErrors provider coder
      programId idl args) ≠ Normal r).
Proof. intros Htx Hsplit Hp Hs Hl. by erewrite build_no_logs. Qed.

(** C9. When the logs are a valid emission, a line that does not parse and
    another valid emission, the call succeeds and [events] holds the two
    decoded events in that order; the bad line leaves no trace in [events]
    and stays in [raw]. Emissions are valid for the parser, which runs when
    the IDL has an [events] property. *)
Theorem malformed_line_is_skipped provider idl tx positional ctx
    provider_simulate resp evs first bad second e1 e2 :
  idl_events idl = Some evs →
  txFn args = Normal tx →
  splitArgsAndCtx idlIx args = Normal (positional, ctx) →
  simulate provider = Some provider_simulate →
  provider_simulate tx (signers ctx) (options ctx ≫= commitment) =
    Fulfilled (Some resp) →
  logs resp = Some [first; bad; second] →
  handleLog parser first = Some e1 →
  handleLog parser bad = None →
  handleLog parser second = Some e2 →
  completion (build idlIx txFn idlErrors provider coder
      programId idl args) =
    Normal {| events := [e1; e2]; raw := [first; bad; second] |}.
Proof.
  intros He Htx Hsplit Hp Hs Hl H1 Hbad H2. erewrite build_logs by done.
  rewrite He. cbn. by rewrite H1, Hbad, H2.
Qed.

(** C10. When the provider returns a result whose log sequence is present
    and empty, the call succeeds with [raw] and [events] both empty: an
    empty sequence is not a missing one, and [LogsNotFound] is not
    thrown. *)
Theorem empty_logs_succeed provider idl tx positional ctx
    provider_simulate resp :
  txFn args = Normal tx →
  splitArgsAndCtx idlIx args = Normal (positional, ctx) →
  simulate provider = Some provider_simulate →
  provider_simulate tx (signers ctx) (options ctx ≫= commitment) =
    Fulfilled (Some resp) →
  logs resp = Some [] →
  completion (build idlIx txFn idlErrors provider coder
      programId idl args) = Normal {| events := []; raw := [] |} ∧
  completion (build idlIx txFn idlErrors provider coder
      programId idl args) ≠ Throw LogsNotFound.
Proof.
  intros Htx Hsplit Hp Hs Hl. erewrite build_logs by done.
  by destruct (idl_events idl).
Qed.

(** ** The calls made on the way *)

(** X1. When the transaction is built and the arguments are split, a
    provider that can simulate is called exactly once, and this is the only
    network call of the invocation; it receives the transaction [txFn]
    returned, the signers of the context as they are, and the commitment of
    the context's options, which is undefined when the context has no
    options. *)
Theorem one_network_call provider idl tx positional ctx provider_simulate :
  txFn args = Normal tx →
  splitArgsAndCtx idlIx args = Normal (positional, ctx) →
  simulate provider = Some provider_simulate →
  List.filter network_call (trace (build idlIx txFn idlErrors provider coder
      programId idl args)) =
    [CallProviderSimulate tx (signers ctx) (options ctx ≫= commitment)].
Proof.
  intros Htx' Hsplit' Hp'. build_paths provider idl; cbn; congruence.
Qed.

(** X2. The provider's simulate is called exactly when [txFn] and
    [splitArgsAndCtx] both return and the provider has a simulate: an
    invocation that fails while the transaction is built or the arguments
    are split makes no network call. *)
Theorem network_call_iff provider idl :
  existsb network_call (trace (build idlIx txFn idlErrors provider coder
      programId idl args)) = true ↔
  ∃ tx split provider_simulate,
    txFn args = Normal tx ∧
    splitArgsAndCtx idlIx args = Normal split ∧
    simulate provider = Some provider_simulate.
Proof.
  build_paths provider idl; cbn; split; try done;
    try (intros (? & ? & ? & ? & ? & ?); congruence);
    intros _; by exists tx0, (positional0, ctx0), f.
Qed.

(** X3. The call succeeds exactly when [txFn] and [splitArgsAndCtx] return,
    the provider can simulate, and its answer to the invocation is a result
    that has a log sequence: nothing else decides between a response and an
    error. *)
Theorem success_iff provider idl :
  (∃ r, completion (build idlIx txFn idlErrors provider coder
      programId idl args) = Normal r) ↔
  ∃ tx positional ctx provider_simulate resp lines,
    txFn args = Normal tx ∧
    splitArgsAndCtx idlIx args = Normal (positional, ctx) ∧
    simulate provider = Some provider_simulate ∧
    provider_simulate tx (signers ctx) (options ctx ≫= commitment) =
      Fulfilled (Some resp) ∧
    logs resp = Some lines.
Proof.
  split.
  - intros [r Hr]. apply build_normal_inv in Hr
      as (tx & positional & ctx & f & resp & Htx & Hsplit & Hp & Hs & Hl & _).
    by exists tx, positional, ctx, f, resp, (raw r).
  - intros (tx & positional & ctx & f & resp & lines
            & Htx & Hsplit & Hp & Hs & Hl).
    eexists. by erewrite build_logs.
Qed.

(** X4. A failed call throws one of six things and nothing else: what
    [txFn] threw, what [splitArgsAndCtx] threw, the "requires
    'Provider.simulate'" error when the provider has no simulate, the
    translation of the provider's rejection, the "Unable to simulate
    transaction" error when the provider returned no result, or the
    "Simulated logs not found" error when the result has no log
    sequence. *)
Theorem failure_is_classified provider idl e :
  completion (build idlIx txFn idlErrors provider coder
      programId idl args) = Throw e →
  txFn args = Throw e ∨
  ∃ tx,
    txFn args = Normal tx ∧
    (splitArgsAndCtx idlIx args = Throw e ∨
     ∃ positional ctx,
       splitArgsAndCtx idlIx args = Normal (positional, ctx) ∧
       ((simulate provider = None ∧
         e = Error
               "This function requires 'Provider.simulate' to be implemented.")
        ∨
        ∃ provider_simulate,
          simulate provider = Some provider_simulate ∧
          ((∃ err,
              provider_simulate tx (signers ctx)
                (options ctx ≫= commitment) = Rejected err ∧
              e = translateError err idlErrors) ∨
           (provider_simulate tx (signers ctx)
              (options ctx ≫= commitment) = Fulfilled None ∧
            e = Error "Unable to simulate transaction") ∨
           (∃ resp,
              provider_simulate tx (signers ctx)
                (options ctx ≫= commitment) = Fulfilled (Some resp) ∧
              logs resp = None ∧
              e = Error "Simulated logs not found")))).
Proof.
  build_paths provider idl; intros [= <-].
  - by left.
  - right. exists tx0. split; [done|]. by left.
  - right. exists tx0. split; [done|]. right.
    exists positional0, ctx0. split; [done|]. by left.
  - right. exists tx0. split; [done|]. right.
    exists positional0, ctx0. split; [done|]. right.
    exists f. split; [done|]. left. by exists err0.
  - right. exists tx0. split; [done|]. right.
    exists positional0, ctx0. split; [done|]. right.
    exists f. split; [done|]. right. by left.
  - right. exists tx0. split; [done|]. right.
    exists positional0, ctx0. split; [done|]. right.
    exists f. split; [done|]. right. right. by exists resp0.
Qed.

(** X5. [translateError] is called exactly when the provider's simulate
    rejects, and on the rejection's own reason. *)
Theorem translate_only_on_rejection provider idl raised :
  CallTranslateError raised ∈ trace (build idlIx txFn idlErrors provider coder
      programId idl args) ↔
  ∃ tx positional ctx provider_simulate,
    txFn args = Normal tx ∧
    splitArgsAndCtx idlIx args = Normal (positional, ctx) ∧
    simulate provider = Some provider_simulate ∧
    provider_simulate tx (signers ctx) (options ctx ≫= commitment) =
      Rejected raised.
Proof.
  build_paths provider idl; rewrite ?elem_of_cons, elem_of_nil; split.
  all: try (intros Hin; decompose [or] Hin; simplify_eq; by eauto 10).
  all: intros (tx & positional & ctx & g & Htx' & Hsplit' & Hg & Hr).
  all: try congruence.
  rewrite Htx in Htx'; rewrite Hsplit in Hsplit'; rewrite Hp in Hg.
  simplify_eq. rewrite Hs in Hr. simplify_eq. auto 10.
Qed.

(** X6. The event parser runs exactly when the call succeeds and the IDL has
    an [events] property: a failed call never made a parser nor handed it
    the logs. *)
Theorem parser_runs_iff provider idl :
  existsb parser_call (trace (build idlIx txFn idlErrors provider coder
      programId idl args)) = true ↔
  (∃ r, completion (build idlIx txFn idlErrors provider coder
      programId idl args) = Normal r) ∧ is_Some (idl_events idl).
Proof.
  build_paths provider idl; cbn; split; try done;
    try (by intros [[r [=]] _]).
  - intros [_ [evs Hevs]]. congruence.
  - intros _. split; eauto.
Qed.

(** X7. Whenever the parser is handed some lines, the call succeeds, [raw]
    is exactly those lines and [events] is exactly what the parser yields
    from them, in the order it yields them. *)
Theorem parser_reads_raw provider idl given :
  CallParseLogs given ∈ trace (build idlIx txFn idlErrors provider coder
      programId idl args) →
  completion (build idlIx txFn idlErrors provider coder
      programId idl args) =
    Normal {| events := parseLogs parser given; raw := given |}.
Proof.
  intros Hin. revert Hin.
  build_paths provider idl; rewrite ?elem_of_cons, elem_of_nil;
    intros Hin; decompose [or] Hin; by simplify_eq.
Qed.

(** X8. Of the IDL's [events] only the presence is read: two IDLs that both
    have the property give the same run, whatever events they list. *)
Theorem declared_events_not_read provider idl idl' evs evs' :
  idl_events idl = Some evs →
  idl_events idl' = Some evs' →
  build idlIx txFn idlErrors provider coder programId idl args =
  build idlIx txFn idlErrors provider coder programId idl' args.
Proof.
  intros He He'. unfold build, bind, try_catch, await, call, invoke. cbn.
  by rewrite He, He'.
Qed.

(** X9. The error table is consulted only to translate a rejection: when
    the provider's simulate does not reject, the run is the same under any
    two error tables. *)
Theorem error_table_only_on_rejection idlErrors' provider idl :
  (∀ tx positional ctx provider_simulate err,
     txFn args = Normal tx →
     splitArgsAndCtx idlIx args = Normal (positional, ctx) →
     simulate provider = Some provider_simulate →
     provider_simulate tx (signers ctx) (options ctx ≫= commitment) ≠
       Rejected err) →
  build idlIx txFn idlErrors provider coder programId idl args =
  build idlIx txFn idlErrors' provider coder programId idl args.
Proof.
  intros Hnot. unfold build, bind, try_catch, await, call, invoke, ret, throw.
  cbn.
  destruct (txFn args) as [tx|e]; [cbn|done].
  destruct (splitArgsAndCtx idlIx args) as [[positional ctx]|e]; [cbn|done].
  destruct (simulate provider) as [f|] eqn:Hp; [cbn|done].
  specialize (Hnot tx positional ctx f).
  destruct (f tx (signers ctx) (options ctx ≫= commitment))
    as [[resp|]|err]; cbn.
  - done.
  - done.
  - by destruct (Hnot err).
Qed.

(** X10. Without an [events] property in the IDL the coder and the program
    address play no part: the run is the same for any two of them. *)
Theorem coder_unused_without_events coder' programId' provider idl :
  idl_events idl = None →
  build idlIx txFn idlErrors provider coder programId idl args =
  build idlIx txFn idlErrors provider coder' programId' idl args.
Proof.
  intros He. unfold build, bind, try_catch, await, call, invoke. cbn.
  by rewrite He.
Qed.

(** X11. The IDL bears on [events] alone: under any other IDL the call
    fails with the same error, or succeeds with the same [raw]. *)
Theorem idl_affects_only_events provider idl idl' :
  (∀ e, completion (build idlIx txFn idlErrors provider coder
      programId idl args) = Throw e →
        completion (build idlIx txFn idlErrors provider coder
                      programId idl' args) = Throw e) ∧
  (∀ r, completion (build idlIx txFn idlErrors provider coder
      programId idl args) = Normal r →
        ∃ r', completion (build idlIx txFn idlErrors provider coder
                            programId idl' args) = Normal r' ∧
              raw r' = raw r).
Proof.
  split.
  - build_paths provider idl; intros e [= <-].
    + by erewrite build_txFn_throws.
    + by erewrite build_split_throws.
    + by erewrite build_unsupported.
    + by erewrite build_rejected.
    + by erewrite build_no_result.
    + by erewrite build_no_logs.
  - intros r Hr. apply build_normal_inv in Hr
      as (tx & positional & ctx & f & resp & Htx & Hsplit & Hp & Hs & Hl & _).
    eexists. by erewrite build_logs.
Qed.

End paths.

(** * The counter program *)

#[local] Existing Instance counter_types.
#[local] Existing Instance counter_collaborators.

(** The iff of C1 on a run whose logs hold no emission. *)
Lemma events_empty_iff_counter :
  events (counter_response [] plain_logs) = [] ↔
  idl_events counter_idl = None ∨
  parseLogs {| parser_programId := "Counter111" : @PublicKey counter_types;
               parser_coder := counter_coder |}
            (raw (counter_response [] plain_logs)) = [].
Proof.
  apply (@events_empty_iff counter_types counter_collaborators
           [] counter_txFn counter_errors counter_coder "Counter111" []
           (provider_logging (Some plain_logs)) counter_idl).
  reflexivity.
Defined.

(** C1 as stated fails: the counter's IDL declares an event, the logs of
    this run hold no emission, and [events] is empty all the same. *)
Lemma events_empty_with_declared_events :
  ∃ r, completion quiet_run = Normal r ∧
       ¬ (events r = [] ↔ declared_events counter_idl = []).
Proof.
  exists (counter_response [] plain_logs). split; [reflexivity|].
  intros [Hempty _]. by specialize (Hempty eq_refl).
Qed.

(** The short-circuit of C2 on the emission logs. *)
Lemma events_absent_short_circuit_counter :
  events (counter_response [] emission_logs) = [] ∧
  existsb parser_call
    (trace (counter_simulate (provider_logging (Some emission_logs))
              counter_coder idl_without_events [])) = false.
Proof.
  apply (@events_absent_short_circuit counter_types counter_collaborators
           [] counter_txFn counter_errors counter_coder "Counter111" []
           (provider_logging (Some emission_logs)) idl_without_events);
    reflexivity.
Defined.

(** C2 as stated fails: an IDL whose [events] property is the empty list
    declares zero events, yet a parser is made and the log lines are handed
    to it. *)
Lemma parser_runs_on_empty_events_list :
  declared_events idl_with_empty_events = [] ∧
  ∃ r, completion empty_events_run = Normal r ∧
       ¬ (events r = [] ∧
          existsb parser_call (trace empty_events_run) = false).
Proof.
  split; [reflexivity|].
  exists (counter_response [] emission_logs). split; [reflexivity|].
  by intros [_ Hcalls].
Qed.

Lemma raw_is_provider_logs_counter :
  ∃ r, completion (counter_simulate (provider_logging (Some emission_logs))
                     counter_coder counter_idl []) = Normal r ∧
       raw r = emission_logs.
Proof.
  apply (@raw_is_provider_logs counter_types counter_collaborators
           [] counter_txFn counter_errors counter_coder "Counter111" []
           (provider_logging (Some emission_logs)) counter_idl
           [] [] empty_context
           (λ _ _ _, Fulfilled (Some {| logs := Some emission_logs |}))
           {| logs := Some emission_logs |} emission_logs);
    reflexivity.
Defined.

Lemma events_in_log_order_counter :
  ∃ r, completion (counter_simulate (provider_logging (Some three_emission_logs))
                     counter_coder counter_idl []) = Normal r ∧
       events r = ["Incremented"; "Incremented"; "Saturated"] ∧
       ["Incremented"; "Incremented"; "Saturated"] `sublist_of` events r.
Proof.
  apply (@events_in_log_order counter_types counter_collaborators
           [] counter_txFn counter_errors counter_coder "Counter111" []
           (provider_logging (Some three_emission_logs)) counter_idl
           [] [] empty_context
           (λ _ _ _, Fulfilled (Some {| logs := Some three_emission_logs |}))
           {| logs := Some three_emission_logs |} ["Incremented"]
           ["Program Counter111 invoke [1]"] "Program data: ev:Incremented"
           ["Program log: step"] "Program data: ev:Incremented"
           [] "Program data: ev:Saturated" ["Program Counter111 success"]
           "Incremented" "Incremented" "Saturated");
    reflexivity.
Defined.

Lemma unsupported_without_network_call_counter :
  existsb network_call (trace unsupported_run) = false ∧
  (∀ r, completion unsupported_run ≠ Normal r) ∧
  (∀ tx split,
     counter_txFn ["1"] = Normal tx →
     counter_splitArgsAndCtx [] ["1"] = Normal split →
     completion unsupported_run = Throw UnsupportedOperation ∧
     UnsupportedOperation =
       Error "This function requires 'Provider.simulate' to be implemented." ∧
     trace unsupported_run = [CallTxFn ["1"]; CallSplitArgsAndCtx [] ["1"]]).
Proof.
  apply (@unsupported_without_network_call counter_types counter_collaborators
           [] counter_txFn counter_errors counter_coder "Counter111" ["1"]
           provider_without_simulate counter_idl).
  reflexivity.
Defined.

Example unsupported_run_throws :
  completion unsupported_run =
  Throw (Error "This function requires 'Provider.simulate' to be implemented.").
Proof. reflexivity. Qed.

(** C5 as stated fails: [set] called without its argument throws the
    splitter's error at line 28, before the provider is looked at, and not
    the [UnsupportedOperation] error, although the provider has no
    simulate. No network call is made all the same. *)
Lemma malformed_arguments_before_capability_check :
  simulate provider_without_simulate = None ∧
  ∃ e, completion malformed_run = Throw e ∧ e ≠ UnsupportedOperation.
Proof.
  split; [reflexivity|]. exists (Error "MalformedArguments").
  split; [reflexivity|]. by intros [=].
Qed.

Lemma rejected_is_translated_counter :
  completion overflow_run =
    Throw (translateError overflow_error counter_errors) ∧
  (∀ c m, errorCode overflow_error = Some c → counter_errors !! c = Some m →
     completion overflow_run = Throw (ProgramError c m)) ∧
  ((∀ c, errorCode overflow_error = Some c → counter_errors !! c = None) →
     completion overflow_run = Throw (UnknownError overflow_error)) ∧
  (∀ r, completion overflow_run ≠ Normal r).
Proof.
  apply (@rejected_is_translated counter_types counter_collaborators
           [] counter_txFn counter_errors counter_coder "Counter111" []
           (provider_settling (Rejected overflow_error)) counter_idl
           [] [] empty_context
           (λ _ _ _, Rejected overflow_error) overflow_error);
    reflexivity.
Defined.

(** The two outcomes of the translation: error 6000 is in the counter's
    table, a failure without a code is not. *)
Example overflow_is_program_error :
  completion overflow_run = Throw (ProgramError 6000 "Counter overflow").
Proof. reflexivity. Qed.

Example connection_error_is_unknown :
  completion (counter_simulate (provider_settling (Rejected connection_error))
                counter_coder counter_idl []) =
  Throw (UnknownError connection_error).
Proof. reflexivity. Qed.

Lemma no_result_is_unavailable_counter :
  completion no_result_run = Throw SimulationUnavailable ∧
  SimulationUnavailable = Error "Unable to simulate transaction".
Proof.
  apply (@no_result_is_unavailable counter_types counter_collaborators
           [] counter_txFn counter_errors counter_coder "Counter111" []
           (provider_settling (Fulfilled None)) counter_idl
           [] [] empty_context
           (λ _ _ _, Fulfilled None));
    reflexivity.
Defined.

(** C7 as stated fails on the message: the error thrown when the provider
    returns no result does not carry "unable to simulate transaction". *)
Lemma unavailable_message_is_capitalised :
  ∃ e, completion no_result_run = Throw e ∧
       e ≠ Error "unable to simulate transaction".
Proof. exists SimulationUnavailable. split; [reflexivity|]. by intros [=]. Qed.

Lemma no_logs_is_logs_not_found_counter :
  completion no_logs_run = Throw LogsNotFound ∧
  LogsNotFound = Error "Simulated logs not found" ∧
  (∀ r, completion no_logs_run ≠ Normal r).
Proof.
  apply (@no_logs_is_logs_not_found counter_types counter_collaborators
           [] counter_txFn counter_errors counter_coder "Counter111" []
           (provider_logging None) counter_idl
           [] [] empty_context
           (λ _ _ _, Fulfilled (Some {| logs := None |})) {| logs := None |});
    reflexivity.
Defined.

(** C8 as stated fails on the message: the error thrown when the result has
    no log sequence does not carry "simulated logs not found". *)
Lemma logs_not_found_message_is_capitalised :
  ∃ e, completion no_logs_run = Throw e ∧
       e ≠ Error "simulated logs not found".
Proof. exists LogsNotFound. split; [reflexivity|]. by intros [=]. Qed.

Lemma malformed_line_is_skipped_counter :
  completion (counter_simulate (provider_logging (Some emission_logs))
                counter_coder counter_idl []) =
  Normal (counter_response ["Incremented"; "Saturated"] emission_logs).
Proof.
  apply (@malformed_line_is_skipped counter_types counter_collaborators
           [] counter_txFn counter_errors counter_coder "Counter111" []
           (provider_logging (Some emission_logs)) counter_idl
           [] [] empty_context
           (λ _ _ _, Fulfilled (Some {| logs := Some emission_logs |}))
           {| logs := Some emission_logs |} ["Incremented"]
           "Program data: ev:Incremented" "Program data: ???"
           "Program data: ev:Saturated" "Incremented" "Saturated");
    reflexivity.
Defined.

Lemma empty_logs_succeed_counter :
  completion (counter_simulate (provider_logging (Some [])) counter_coder
                counter_idl []) = Normal (counter_response [] []) ∧
  completion (counter_simulate (provider_logging (Some [])) counter_coder
                counter_idl []) ≠ Throw LogsNotFound.
Proof.
  apply (@empty_logs_succeed counter_types counter_collaborators
           [] counter_txFn counter_errors counter_coder "Counter111" []
           (provider_logging (Some [])) counter_idl
           [] [] empty_context
           (λ _ _ _, Fulfilled (Some {| logs := Some [] |}))
           {| logs := Some [] |});
    reflexivity.
Defined.

(** ** The calls of the counter's runs *)

Lemma one_network_call_counter :
  List.filter network_call
    (trace (counter_simulate (provider_logging (Some emission_logs))
              counter_coder counter_idl [])) =
  [CallProviderSimulate [] None None].
Proof.
  apply (@one_network_call counter_types counter_collaborators
           [] counter_txFn counter_errors counter_coder "Counter111" []
           (provider_logging (Some emission_logs)) counter_idl
           [] [] empty_context
           (λ _ _ _, Fulfilled (Some {| logs := Some emission_logs |})));
    reflexivity.
Defined.

Lemma failure_is_classified_counter :
  counter_txFn [] = Throw LogsNotFound ∨
  ∃ tx,
    counter_txFn [] = Normal tx ∧
    (counter_splitArgsAndCtx [] [] = Throw LogsNotFound ∨
     ∃ positional ctx,
       counter_splitArgsAndCtx [] [] = Normal (positional, ctx) ∧
       ((simulate (provider_logging None) = None ∧
         LogsNotFound =
           Error
             "This function requires 'Provider.simulate' to be implemented.")
        ∨
        ∃ provider_simulate,
          simulate (provider_logging None) = Some provider_simulate ∧
          ((∃ err,
              provider_simulate tx (signers ctx)
                (options ctx ≫= commitment) = Rejected err ∧
              LogsNotFound = translateError err counter_errors) ∨
           (provider_simulate tx (signers ctx)
              (options ctx ≫= commitment) = Fulfilled None ∧
            LogsNotFound = Error "Unable to simulate transaction") ∨
           (∃ resp,
              provider_simulate tx (signers ctx)
                (options ctx ≫= commitment) = Fulfilled (Some resp) ∧
              logs resp = None ∧
              LogsNotFound = Error "Simulated logs not found")))).
Proof.
  apply (@failure_is_classified counter_types counter_collaborators
           [] counter_txFn counter_errors counter_coder "Counter111" []
           (provider_logging None) counter_idl LogsNotFound);
    reflexivity.
Defined.

Lemma parser_reads_raw_counter :
  completion (counter_simulate (provider_logging (Some emission_logs))
                counter_coder counter_idl []) =
  Normal {| events := parseLogs
                        {| parser_programId := "Counter111" : PublicKey;
                           parser_coder := counter_coder |} emission_logs;
            raw := emission_logs |}.
Proof.
  apply (@parser_reads_raw counter_types counter_collaborators
           [] counter_txFn counter_errors counter_coder "Counter111" []
           (provider_logging (Some emission_logs)) counter_idl emission_logs).
  vm_compute. repeat constructor.
Defined.

Lemma declared_events_not_read_counter :
  counter_simulate (provider_logging (Some emission_logs)) counter_coder
    counter_idl [] =
  counter_simulate (provider_logging (Some emission_logs)) counter_coder
    idl_with_empty_events [].
Proof.
  apply (@declared_events_not_read counter_types counter_collaborators
           [] counter_txFn counter_errors counter_coder "Counter111" []
           (provider_logging (Some emission_logs)) counter_idl
           idl_with_empty_events ["Incremented"] []);
    reflexivity.
Defined.

Lemma error_table_only_on_rejection_counter :
  counter_simulate (provider_logging (Some emission_logs)) counter_coder
    counter_idl [] =
  @build counter_types counter_collaborators [] counter_txFn ∅
    (provider_logging (Some emission_logs)) counter_coder "Counter111"
    counter_idl [].
Proof.
  apply (@error_table_only_on_rejection counter_types counter_collaborators
           [] counter_txFn counter_errors counter_coder "Counter111" [] ∅
           (provider_logging (Some emission_logs)) counter_idl).
  intros tx positional ctx provider_simulate err _ _ [= <-]. discriminate.
Defined.

Lemma coder_unused_without_events_counter :
  counter_simulate (provider_logging (Some emission_logs)) counter_coder
    idl_without_events [] =
  @build counter_types counter_collaborators [] counter_txFn counter_errors
    (provider_logging (Some emission_logs)) eventless_coder "Other111"
    idl_without_events [].
Proof.
  apply (@coder_unused_without_events counter_types counter_collaborators
           [] counter_txFn counter_errors counter_coder "Counter111" []
           eventless_coder "Other111"
           (provider_logging (Some emission_logs)) idl_without_events).
  reflexivity.
Defined.
